(** * Gradient-norm reporting: [pytorch_lightning.utilities.grads.grad_norm]

    A shallow embedding of [grad_norm] together with the Python built-ins it
    calls ([float], [round], f-string formatting of a float, [dict]) and an
    interface for the tensor library it delegates the norms to.

    Python floats are IEEE-754 binary64 values; they are represented by the
    Standard Library's [spec_float] at precision 53 and maximal exponent 1024,
    so every operation below computes. *)

From Stdlib Require Import ZArith NArith PArith List String Ascii Bool Lia.
From Stdlib Require Import Floats.SpecFloat DecimalString.
Import ListNotations.

Local Open Scope Z_scope.

(* ================================================================== *)
(** ** Python floats *)

Module PyFloat.

Definition float := spec_float.

Definition prec : Z := 53.
Definition emax : Z := 1024.

Definition pinf : float := S754_infinity false.
Definition ninf : float := S754_infinity true.
Definition nan : float := S754_nan.
Definition pzero : float := S754_zero false.

(** Structural equality; on canonical binary64 values it is equality of bit
    patterns (all NaNs identified), not the IEEE comparison [==]. *)
Definition same (x y : float) : bool :=
  match x, y with
  | S754_zero a, S754_zero b => Bool.eqb a b
  | S754_infinity a, S754_infinity b => Bool.eqb a b
  | S754_nan, S754_nan => true
  | S754_finite a m e, S754_finite b m' e' =>
      Bool.eqb a b && Pos.eqb m m' && Z.eqb e e'
  | _, _ => false
  end.

Definition is_nan (x : float) : bool :=
  match x with S754_nan => true | _ => false end.

Definition is_inf (x : float) : bool :=
  match x with S754_infinity _ => true | _ => false end.

Definition is_finite (x : float) : bool :=
  match x with S754_zero _ | S754_finite _ _ _ => true | _ => false end.

(** [0.0 <= x] as Python evaluates it: false on NaN, true on [-0.0]. *)
Definition nonneg (x : float) : bool := SFleb pzero x.

Definition fabs (x : float) : float := SFabs x.
Definition fadd (x y : float) : float := SFadd prec emax x y.
Definition fmul (x y : float) : float := SFmul prec emax x y.
Definition fsqrt (x : float) : float := SFsqrt prec emax x.

(** The binary64 value nearest to the rational [n / d] (ties to even), with
    sign [s]; overflow gives an infinity, underflow a subnormal or a zero. *)
Definition nearest (s : bool) (n d : positive) : float :=
  SFdiv prec emax (S754_finite s n 0) (S754_finite false d 0).

Definition of_ratio (s : bool) (n : N) (d : positive) : float :=
  match n with
  | N0 => S754_zero s
  | Npos p => nearest s p d
  end.

(** The value of the decimal numeral [digits * 10 ^ exp10]. *)
Definition of_decimal (s : bool) (digits : N) (exp10 : Z) : float :=
  match exp10 with
  | Zneg k => of_ratio s digits (10 ^ k)%positive
  | _ => of_ratio s (digits * Z.to_N (10 ^ exp10))%N 1%positive
  end.

(** Conversion of an integer, correctly rounded. *)
Definition of_Z (z : Z) : float := binary_normalize prec emax z 0 false.

(** Nearest integer to [n / d] for [0 <= n], ties to even. *)
Definition round_half_even (n : Z) (d : positive) : Z :=
  let q := n / Zpos d in
  let r := n mod Zpos d in
  match (2 * r ?= Zpos d) with
  | Lt => q
  | Gt => q + 1
  | Eq => if Z.even q then q else q + 1
  end.

(** [round(x, ndigits)] for a float [x] and [0 <= ndigits]: NaN and the
    infinities round to themselves; a finite [x] is rounded, exactly and
    ties to even, to a multiple of [10 ^ -ndigits], and the result is the
    float nearest to that decimal, with the sign of [x]. *)
Definition py_round (x : float) (ndigits : N) : float :=
  match x with
  | S754_finite s m e =>
      let scale := 10 ^ Z.of_N ndigits in
      let r := match e with
               | Zneg k => round_half_even (Zpos m * scale) (2 ^ k)%positive
               | _ => Zpos m * 2 ^ e * scale
               end in
      of_ratio s (Z.to_N r) (Z.to_pos scale)
  | _ => x
  end.

End PyFloat.

Import PyFloat.

(* ================================================================== *)
(** ** Text: [float(str)] and the formatting of a float *)

Module PyText.

Local Open Scope char_scope.

Definition is_digit (c : ascii) : bool :=
  let n := N_of_ascii c in (48 <=? n)%N && (n <=? 57)%N.

Definition digit_value (c : ascii) : N := (N_of_ascii c - 48)%N.

(** C's [isspace] in the C locale: tab, newline, vertical tab, form feed,
    carriage return, space. *)
Definition is_space (c : ascii) : bool :=
  let n := N_of_ascii c in ((9 <=? n)%N && (n <=? 13)%N) || (n =? 32)%N.

Definition is_ascii (c : ascii) : bool := (N_of_ascii c <? 128)%N.

Definition to_lower (c : ascii) : ascii :=
  let n := N_of_ascii c in
  if (65 <=? n)%N && (n <=? 90)%N then ascii_of_N (n + 32) else c.

Fixpoint lstrip (cs : list ascii) : list ascii :=
  match cs with
  | c :: cs' => if is_space c then lstrip cs' else cs
  | [] => []
  end.

Definition strip (cs : list ascii) : list ascii :=
  rev (lstrip (rev (lstrip cs))).

(** Underscores may group digits: each one must stand between two digits.
    [prev] is the character before [cs]. The result is the text with its
    underscores removed, or [None] where one is misplaced. *)
Fixpoint drop_underscores (prev : ascii) (cs : list ascii) : option (list ascii) :=
  match cs with
  | [] => if Ascii.eqb prev "_" then None else Some []
  | c :: cs' =>
      if Ascii.eqb c "_" then
        if is_digit prev then drop_underscores c cs' else None
      else if Ascii.eqb prev "_" && negb (is_digit c) then None
      else option_map (cons c) (drop_underscores c cs')
  end.

(** What a numeric text denotes before it is rounded to a float. *)
Inductive literal :=
| LitNum (neg : bool) (digits : N) (exp10 : Z)
| LitInf (neg : bool)
| LitNan.

(** The longest prefix of digits: its value after the digits [acc] read so
    far, how many digits it has, and the rest of the text. *)
Fixpoint take_digits (acc : N) (cs : list ascii) : N * nat * list ascii :=
  match cs with
  | c :: cs' =>
      if is_digit c then
        let '(v, n, rest) := take_digits (acc * 10 + digit_value c)%N cs' in
        (v, S n, rest)
      else (acc, O, cs)
  | [] => (acc, O, [])
  end.

Definition take_sign (cs : list ascii) : bool * list ascii :=
  match cs with
  | "-" :: cs' => (true, cs')
  | "+" :: cs' => (false, cs')
  | _ => (false, cs)
  end.

(** An exponent part, or nothing; [None] when an exponent is begun and not
    finished, or when text is left over. *)
Definition scan_exponent (cs : list ascii) : option Z :=
  match cs with
  | [] => Some 0
  | c :: cs' =>
      if Ascii.eqb (to_lower c) "e" then
        let '(eneg, cs'') := take_sign cs' in
        match take_digits 0 cs'' with
        | (v, S _, []) => Some (if eneg then - Z.of_N v else Z.of_N v)
        | _ => None
        end
      else None
  end.

(** A decimal numeral: digits, an optional point and more digits (at least
    one digit in all), an optional exponent. *)
Definition scan_decimal (neg : bool) (cs : list ascii) : option literal :=
  let '(ip, n1, rest1) := take_digits 0 cs in
  let '(v, n2, rest2) :=
    match rest1 with
    | "." :: rest => take_digits ip rest
    | _ => (ip, O, rest1)
    end in
  match (n1 + n2)%nat with
  | O => None
  | S _ =>
      match scan_exponent rest2 with
      | Some e => Some (LitNum neg v (e - Z.of_nat n2))
      | None => None
      end
  end.

Definition scan_symbol (neg : bool) (cs : list ascii) : option literal :=
  let low := string_of_list_ascii (map to_lower cs) in
  if String.eqb low "inf" || String.eqb low "infinity" then Some (LitInf neg)
  else if String.eqb low "nan" then Some LitNan
  else None.

(** The text of a float, already stripped and free of underscores. *)
Definition scan_literal (cs : list ascii) : option literal :=
  let '(neg, body) := take_sign cs in
  match body with
  | c :: _ =>
      if is_digit c || Ascii.eqb c "." then scan_decimal neg body
      else scan_symbol neg body
  | [] => None
  end.

Definition scan_float (s : string) : option literal :=
  match drop_underscores "000" (strip (list_ascii_of_string s)) with
  | Some cs => scan_literal cs
  | None => None
  end.

Definition literal_value (l : literal) : float :=
  match l with
  | LitNum neg digits exp10 => of_decimal neg digits exp10
  | LitInf neg => S754_infinity neg
  | LitNan => nan
  end.

(** *** [repr] of a float, which an f-string field without a format
    specification produces: the shortest decimal numeral that reads back as
    the same float and, among those, the one nearest to it. *)

Local Open Scope string_scope.

Definition digits_of (n : N) : string := NilZero.string_of_uint (N.to_uint n).

Fixpoint zeros (n : nat) : string :=
  match n with
  | O => ""
  | S n' => "0" ++ zeros n'
  end.

(** [num / den < 10 ^ d] for positive [num] and [den]. *)
Definition below_pow10 (num den : Z) (d : Z) : bool :=
  match d with
  | Zneg k => (num * 10 ^ Zpos k <? den)%Z
  | _ => (num <? den * 10 ^ d)%Z
  end.

Fixpoint raise_decpt (fuel : nat) (num den d : Z) : Z :=
  match fuel with
  | O => d
  | S fuel' =>
      if below_pow10 num den d then d else raise_decpt fuel' num den (d + 1)
  end.

Fixpoint lower_decpt (fuel : nat) (num den d : Z) : Z :=
  match fuel with
  | O => d
  | S fuel' =>
      if below_pow10 num den (d - 1) then lower_decpt fuel' num den (d - 1)
      else d
  end.

(** The decimal exponent [d] of [num / den]: [10 ^ (d - 1) <= num / den < 10 ^ d].
    The binary logarithms give it within one. *)
Definition decimal_point (num den : Z) : Z :=
  let guess := ((Z.log2 num - Z.log2 den) * 30103 / 100000)%Z in
  lower_decpt 4 num den (raise_decpt 4 num den guess).

(** The two [k]-digit decimals around [num / den], as integers to be scaled
    by [10 ^ (d - k)], and whether the lower one is at least as near. *)
Definition neighbours (num den d : Z) (k : Z) : Z * Z * bool :=
  let '(n, m) :=
    match (d - k)%Z with
    | Zneg j => ((num * 10 ^ Zpos j)%Z, den)
    | j => (num, (den * 10 ^ j)%Z)
    end in
  let lo := (n / m)%Z in
  (lo, (lo + 1)%Z, (2 * (n mod m) <=? m)%Z).

Definition reads_back (x : float) (c : Z) (e : Z) : bool :=
  same (of_decimal false (Z.to_N c) e) (fabs x).

(** The shortest digits for the finite, non-zero [x = num / den] in absolute
    value, trying [k], [k + 1], ... digits: the integer and its exponent. *)
Fixpoint shortest (fuel : nat) (x : float) (num den d : Z) (k : Z) : Z * Z :=
  let '(lo, hi, lo_near) := neighbours num den d k in
  let e := (d - k)%Z in
  match fuel with
  | O => (if lo_near then lo else hi, e)
  | S fuel' =>
      match reads_back x lo e, reads_back x hi e with
      | true, true => (if lo_near then lo else hi, e)
      | true, false => (lo, e)
      | false, true => (hi, e)
      | false, false => shortest fuel' x num den d (k + 1)
      end
  end.

Fixpoint strip_zeros (fuel : nat) (c e : Z) : Z * Z :=
  match fuel with
  | O => (c, e)
  | S fuel' =>
      if ((c mod 10 =? 0) && negb (c =? 0))%Z
      then strip_zeros fuel' (c / 10)%Z (e + 1)%Z
      else (c, e)
  end.

Definition substring_from (n : nat) (s : string) : string :=
  substring n (String.length s - n) s.

(** The layout of [repr]: digits [ds] with the decimal point after the first
    [decpt] of them; exponent notation when [decpt <= -4] or [16 < decpt]. *)
Definition layout (ds : string) (decpt : Z) : string :=
  let n := Z.of_nat (String.length ds) in
  if ((decpt <=? -4) || (16 <? decpt))%Z then
    let ex := (decpt - 1)%Z in
    let mant :=
      if (n =? 1)%Z then ds
      else substring 0 1 ds ++ "." ++ substring_from 1 ds in
    let ed := digits_of (Z.to_N (Z.abs ex)) in
    mant ++ "e" ++ (if (ex <? 0)%Z then "-" else "+")
         ++ (if (Z.abs ex <? 10)%Z then "0" else "") ++ ed
  else if (decpt <=? 0)%Z then
    "0." ++ zeros (Z.to_nat (- decpt)) ++ ds
  else if (n <=? decpt)%Z then
    ds ++ zeros (Z.to_nat (decpt - n)) ++ ".0"
  else
    substring 0 (Z.to_nat decpt) ds ++ "." ++ substring_from (Z.to_nat decpt) ds.

Definition float_repr (x : float) : string :=
  match x with
  | S754_nan => "nan"
  | S754_infinity s => if s then "-inf" else "inf"
  | S754_zero s => if s then "-0.0" else "0.0"
  | S754_finite s m e =>
      let '(num, den) :=
        match e with
        | Zneg k => (Zpos m, (2 ^ Zpos k)%Z)
        | _ => ((Zpos m * 2 ^ e)%Z, 1%Z)
        end in
      let d := decimal_point num den in
      let '(c, ex) := shortest 16 x num den d 1 in
      let '(c', ex') := strip_zeros 20 c ex in
      let ds := digits_of (Z.to_N c') in
      (if s then "-" else "") ++ layout ds (ex' + Z.of_nat (String.length ds))
  end.

End PyText.

Import PyText.

(* ================================================================== *)
(** ** Exceptions, outcomes and computations over the module's state *)

(** The exceptions [float(norm_type)] raises on an argument of the annotated
    type [Union[float, int, str]]. [grad_norm] has no [raise] and no [try]
    of its own. *)
Inductive exn := ValueError | OverflowError.

Inductive outcome (A : Type) :=
| Returns (a : A)
| Raises (e : exn).

Arguments Returns {A} a.
Arguments Raises {A} e.

(** A computation reads and may write a state [S] and returns or raises. *)
Definition M (S A : Type) : Type := S -> outcome A * S.

Definition ret {S A} (a : A) : M S A := fun s => (Returns a, s).

Definition raise {S A} (e : exn) : M S A := fun s => (Raises e, s).

Definition bind {S A B} (c : M S A) (k : A -> M S B) : M S B :=
  fun s =>
    match c s with
    | (Returns a, s') => k a s'
    | (Raises e, s') => (Raises e, s')
    end.

Definition lift {S A} (o : outcome A) : M S A := fun s => (o, s).

Definition get_state {S} : M S S := fun s => (Returns s, s).

Declare Scope py_scope.
Delimit Scope py_scope with py.

Notation "x <- c ;; k" := (bind c (fun x => k))
  (at level 100, c at next level, right associativity) : py_scope.

(* ================================================================== *)
(** ** [dict]: keys in insertion order, a key kept once *)

Module Dict.

Definition dict (V : Type) : Type := list (string * V).

Definition empty {V} : dict V := [].

(** [d[k] = v]: an existing key keeps its place and takes the new value, a
    new key goes last. *)
Fixpoint set {V} (d : dict V) (k : string) (v : V) : dict V :=
  match d with
  | [] => [(k, v)]
  | (k', v') :: d' =>
      if String.eqb k k' then (k', v) :: d' else (k', v') :: set d' k v
  end.

Fixpoint get {V} (d : dict V) (k : string) : option V :=
  match d with
  | [] => None
  | (k', v') :: d' => if String.eqb k k' then Some v' else get d' k
  end.

Definition keys {V} (d : dict V) : list string := map fst d.
Definition values {V} (d : dict V) : list V := map snd d.
Definition items {V} (d : dict V) : list (string * V) := d.
Definition len {V} (d : dict V) : nat := List.length d.

(** Truth value of a dict: non-empty. *)
Definition truthy {V} (d : dict V) : bool :=
  match d with [] => false | _ => true end.

(** Insertion of what [entry] gives for each of [xs], in order. *)
Definition insert_all {X V} (entry : X -> option (string * V))
  (xs : list X) (d : dict V) : dict V :=
  fold_left
    (fun d x => match entry x with Some (k, v) => set d k v | None => d end)
    xs d.

(** [{k: v for x in xs if c}]: [entry x] is the pair [(k, v)] of an [x] that
    passes the condition. *)
Definition comprehension {X V} (entry : X -> option (string * V))
  (xs : list X) : dict V :=
  insert_all entry xs empty.

End Dict.

(* ================================================================== *)
(** ** What [grad_norm] takes from outside *)

(** The tensor library: [t.norm(p)], [t.item()] and [torch.tensor(values)].
    None of them writes to its argument. The element type of a tensor is the
    library's affair; [item] hands a Python float back. *)
Class TensorLib := {
  Tensor : Type;
  norm : float -> Tensor -> Tensor;
  item : Tensor -> float;
  tensor : list float -> Tensor
}.

(** CPython's Unicode tables: before [float] scans a [str] that is not pure
    ASCII, each non-ASCII space becomes a blank, each non-ASCII decimal digit
    its ASCII digit and any other non-ASCII character a question mark. A
    pure ASCII text is scanned as it is. *)
Class UnicodeData := {
  decimal_and_space_to_ascii : string -> string
}.

(** [norm_type: Union[float, int, str]] *)
Inductive norm_arg :=
| ArgFloat (f : float)
| ArgInt (z : Z)
| ArgStr (s : string).

Section GradNorm.

Context {U : UnicodeData} {T : TensorLib}.

(** A parameter: its values and, once a backward pass has run, its gradient
    ([p.grad] is [None] before). *)
Record Param := {
  data : Tensor;
  grad : option Tensor
}.

(** The state of a [torch.nn.Module] that [grad_norm] looks at: what
    [module.named_parameters()] yields, in its order. PyTorch gives the
    parameters of a module distinct names; the statements that rest on it
    assume it. *)
Definition NNModule : Type := list (string * Param).

Definition named_parameters : M NNModule (list (string * Param)) :=
  get_state.

Definition ascii_text (s : string) : string :=
  if forallb is_ascii (list_ascii_of_string s) then s
  else decimal_and_space_to_ascii s.

(** [float(norm_type)] *)
Definition py_float (a : norm_arg) : outcome float :=
  match a with
  | ArgFloat f => Returns f
  | ArgInt z =>
      match of_Z z with
      | S754_infinity _ => Raises OverflowError
      | f => Returns f
      end
  | ArgStr s =>
      match scan_float (ascii_text s) with
      | Some l => Returns (literal_value l)
      | None => Raises ValueError
      end
  end.

(** [f"grad_{norm_type}_norm_{name}"] *)
Definition label (norm_type : float) (name : string) : string :=
  ("grad_" ++ float_repr norm_type ++ "_norm_" ++ name)%string.

(** One step of the comprehension of lines 38-42: a parameter whose [grad] is
    not [None] gives its label and [p.grad.data.norm(norm_type).item()]
    ([.data] is the same values). *)
Definition norm_entry (norm_type : float) (np : string * Param)
  : option (string * float) :=
  match grad (snd np) with
  | Some g => Some (label norm_type (fst np), item (norm norm_type g))
  | None => None
  end.

(** Lines 38-42: the norms of the parameters that have a gradient. *)
Definition param_norms (norm_type : float) (ps : list (string * Param))
  : Dict.dict float :=
  Dict.comprehension (norm_entry norm_type) ps.

(** Lines 44-45: the norm of the collected norms, stored under the total label. *)
Definition total_norm (norm_type : float) (norms : Dict.dict float) : float :=
  item (norm norm_type (tensor (Dict.values norms))).

Definition store_total (norm_type : float) (norms : Dict.dict float)
  : Dict.dict float :=
  Dict.set norms (label norm_type "total") (total_norm norm_type norms).

(** Line 46: [{k: round(v, 4) for k, v in norms.items()}] *)
Definition round_all (norms : Dict.dict float) : Dict.dict float :=
  Dict.comprehension (fun kv => Some (fst kv, py_round (snd kv) 4))
    (Dict.items norms).

(** [grad_norm(module, norm_type)], the module being the state. *)
Definition grad_norm (norm_type : norm_arg) : M NNModule (Dict.dict float) :=
  (norm_type <- lift (py_float norm_type) ;;
   ps <- named_parameters ;;
   let norms := param_norms norm_type ps in
   if Dict.truthy norms
   then ret (round_all (store_total norm_type norms))
   else ret norms)%py.

End GradNorm.

Arguments Param {T}.
Arguments NNModule {T}.

(* ================================================================== *)
(** ** A reference tensor library

    Tensors as the list of their values, with the norms of the glossary: the
    p-norm is (sum of |x_i|^p)^(1/p) and the infinity norm is max(|x_i|).
    Arithmetic is carried out in binary64 from left to right; a tensor
    library works in the tensor's element type and in an order of its own,
    and agrees with this wherever every step is exact. [fpow] is the power
    function of the platform, which the orders 0, 1, 2 and the infinities do
    not use. *)

Module Reference.

Section Norms.

Variable fpow : float -> float -> float.

Definition one : float := of_Z 1.

(** The larger (smaller) of two floats; a NaN wins. *)
Definition fmax (x y : float) : float :=
  if is_nan x then x else if is_nan y then y
  else if SFltb x y then y else x.

Definition fmin (x y : float) : float :=
  if is_nan x then x else if is_nan y then y
  else if SFltb y x then y else x.

Definition sum_with (f : float -> float) (xs : list float) : float :=
  fold_left (fun acc x => fadd acc (f x)) xs pzero.

Definition vector_norm (p : float) (xs : list float) : float :=
  match p with
  | S754_infinity false => fold_left (fun acc x => fmax acc (fabs x)) xs pzero
  | S754_infinity true => fold_left (fun acc x => fmin acc (fabs x)) xs pinf
  | _ =>
      if SFeqb p pzero then
        sum_with (fun x => if SFeqb x pzero then pzero else one) xs
      else if SFeqb p one then sum_with fabs xs
      else if SFeqb p (of_Z 2) then fsqrt (sum_with (fun x => fmul x x) xs)
      else fpow (sum_with (fun x => fpow (fabs x) p) xs)
                (SFdiv prec emax one p)
  end.

(** [t.item()] of a tensor with one element. *)
Definition the_item (t : list float) : float :=
  match t with
  | [x] => x
  | _ => nan
  end.

Definition lib : TensorLib := {|
  Tensor := list float;
  norm := fun p t => [vector_norm p t];
  item := the_item;
  tensor := fun values => values
|}.

End Norms.

(** Pure ASCII texts need no table. *)
Definition ascii_only : UnicodeData := {|
  decimal_and_space_to_ascii := fun s => s
|}.

End Reference.

(* ================================================================== *)
(** ** Vocabulary of the statements *)

Section Views.

Context {T : TensorLib}.

(** [p.grad is not None] *)
Definition has_grad (np : string * Param) : bool :=
  match grad (snd np) with Some _ => true | None => false end.

(** The parameters that hold a gradient, in the module's order. *)
Definition grad_bearing (m : NNModule) : list (string * Param) :=
  filter has_grad m.

(** Their gradients. *)
Definition gradients (m : NNModule) : list Tensor :=
  flat_map (fun np => match grad (snd np) with Some g => [g] | None => [] end) m.

(** The names and gradients of the parameters that hold a gradient: all
    that the comprehension of lines 38-42 reads. *)
Definition named_gradients (m : NNModule) : list (string * Tensor) :=
  flat_map
    (fun np => match grad (snd np) with Some g => [(fst np, g)] | None => [] end)
    m.


End Views.

(** The entries a comprehension inserts, one after the other. *)
Definition entries {X V} (entry : X -> option (string * V)) (xs : list X)
  : list (string * V) :=
  flat_map (fun x => match entry x with Some kv => [kv] | None => [] end) xs.

(** How a norm order reads, in the words of the specification: as a real
    number, as an infinity, or as a NaN. *)
Section Reading.

Context {U : UnicodeData}.

Definition denotes_real (a : norm_arg) : Prop :=
  match a with
  | ArgFloat f => is_finite f = true
  | ArgInt _ => True
  | ArgStr s =>
      exists neg digits e, scan_float (ascii_text s) = Some (LitNum neg digits e)
  end.

Definition denotes_infinity (a : norm_arg) : Prop :=
  match a with
  | ArgFloat f => is_inf f = true
  | ArgInt _ => False
  | ArgStr s => exists neg, scan_float (ascii_text s) = Some (LitInf neg)
  end.

Definition denotes_nan (a : norm_arg) : Prop :=
  match a with
  | ArgFloat f => is_nan f = true
  | ArgInt _ => False
  | ArgStr s => scan_float (ascii_text s) = Some LitNan
  end.

End Reading.

(** Modules over the reference library, for the scenarios. *)
Module Scenario.

(** No scenario uses an order that needs the power function. *)
Definition lib : TensorLib := Reference.lib (fun _ _ => nan).

Definition with_grad (g : list float) : @Param lib :=
  @Build_Param lib (map (fun _ => pzero) g) (Some g).

Definition without_grad (values : list float) : @Param lib :=
  @Build_Param lib values None.

Definition two_layers : @NNModule lib :=
  [("p1", with_grad [of_Z 3; of_Z 4]);
   ("frozen", without_grad [of_Z 1]);
   ("p2", with_grad [pzero])]%string.

Definition no_gradients : @NNModule lib :=
  [("w", without_grad [of_Z 1; of_Z 2]); ("b", without_grad [pzero])]%string.

Definition single (name : string) : @NNModule lib :=
  [(name, with_grad [of_Z 3; of_Z (-7); of_Z 2])].

Definition named_total : @NNModule lib :=
  [("total", with_grad [of_Z 3; of_Z 4]); ("bias", with_grad [of_Z 1])]%string.

Definition nan_gradient : @NNModule lib :=
  [("w", with_grad [nan])]%string.

(** [2 ** -14], exact in every binary format in use. *)
Definition tiny : float := S754_finite false 4503599627370496 (-66).

Definition tiny_gradient : @NNModule lib :=
  [("w", with_grad [tiny])]%string.

Definition sparse : @NNModule lib :=
  [("w", with_grad [of_Z 3; pzero; of_Z 2]);
   ("v", with_grad [of_Z 1; of_Z 1; of_Z 1])]%string.

(** [two_layers] without its frozen parameter and with other values. *)
Definition two_layers_trained : @NNModule lib :=
  [("p1", @Build_Param lib [of_Z 9; of_Z 8] (Some [of_Z 3; of_Z 4]));
   ("p2", @Build_Param lib [of_Z 7] (Some [pzero]))]%string.

End Scenario.

(* ================================================================== *)
(** ** Facts about [dict] *)

Module DictFacts.

Import Dict.

Section Facts.

Context {V : Type}.

Implicit Types (d : dict V) (k : string) (v : V).

Lemma get_set_same d k v : get (set d k v) k = Some v.
Proof.
  induction d as [|[k' v'] d IH]; simpl.
  - now rewrite String.eqb_refl.
  - destruct (String.eqb k k') eqn:E; simpl; rewrite E; auto.
Qed.

Lemma get_set_other d k k0 v : k0 <> k -> get (set d k v) k0 = get d k0.
Proof.
  intros Hne. induction d as [|[k' v'] d IH]; simpl.
  - destruct (String.eqb k0 k) eqn:E; auto.
    apply String.eqb_eq in E. contradiction.
  - destruct (String.eqb k k') eqn:E; simpl.
    + apply String.eqb_eq in E. subst k'.
      destruct (String.eqb k0 k) eqn:E0; auto.
      apply String.eqb_eq in E0. contradiction.
    + now rewrite IH.
Qed.

Lemma keys_set d k v k0 : In k0 (keys (set d k v)) <-> k0 = k \/ In k0 (keys d).
Proof.
  induction d as [|[k' v'] d IH]; simpl.
  - intuition congruence.
  - destruct (String.eqb k k') eqn:E; simpl.
    + apply String.eqb_eq in E. subst k'. intuition congruence.
    + rewrite IH. intuition congruence.
Qed.

Lemma set_fresh d k v : ~ In k (keys d) -> set d k v = d ++ [(k, v)].
Proof.
  induction d as [|[k' v'] d IH]; simpl; intros Hn; auto.
  destruct (String.eqb k k') eqn:E.
  - apply String.eqb_eq in E. subst k'. tauto.
  - f_equal. apply IH. tauto.
Qed.

Lemma keys_set_present d k v : In k (keys d) -> keys (set d k v) = keys d.
Proof.
  induction d as [|[k' v'] d IH]; simpl; intros Hin; [tauto|].
  destruct (String.eqb k k') eqn:E; simpl; auto.
  f_equal. apply IH. destruct Hin as [->|]; auto.
  now rewrite String.eqb_refl in E.
Qed.

Lemma len_set_present d k v : In k (keys d) -> len (set d k v) = len d.
Proof.
  intros Hin. unfold len.
  rewrite <- (length_map fst (set d k v)), <- (length_map fst d).
  change (List.length (keys (set d k v)) = List.length (keys d)).
  now rewrite keys_set_present.
Qed.

Lemma len_set_fresh d k v : ~ In k (keys d) -> len (set d k v) = S (len d).
Proof.
  intros Hn. rewrite set_fresh by assumption.
  unfold len. rewrite length_app. simpl. lia.
Qed.

Lemma nodup_set d k v : NoDup (keys d) -> NoDup (keys (set d k v)).
Proof.
  intros Hnd. destruct (in_dec string_dec k (keys d)) as [Hin|Hn].
  - now rewrite keys_set_present.
  - rewrite set_fresh by assumption. unfold keys. rewrite map_app. simpl.
    apply NoDup_app; auto.
    + constructor; [tauto | constructor].
    + intros x Hx [<-|[]]. now apply Hn.
Qed.

Lemma get_in_keys d k v : get d k = Some v -> In (k, v) d.
Proof.
  induction d as [|[k' v'] d IH]; simpl; [discriminate|].
  destruct (String.eqb k k') eqn:E.
  - apply String.eqb_eq in E. intros [= ->]. subst. now left.
  - auto.
Qed.

Lemma in_get d k v : NoDup (keys d) -> In (k, v) d -> get d k = Some v.
Proof.
  induction d as [|[k' v'] d IH]; simpl; [tauto|].
  intros Hnd [[= -> ->]|Hin].
  - now rewrite String.eqb_refl.
  - inversion Hnd as [|? ? Hn Hnd']; subst.
    destruct (String.eqb k k') eqn:E; auto.
    apply String.eqb_eq in E. subst k'.
    exfalso. apply Hn. change (In (fst (k, v)) (map fst d)). now apply in_map.
Qed.

Lemma set_elems d k v k0 v0 :
  In (k0, v0) (set d k v) -> (k0 = k /\ v0 = v) \/ In (k0, v0) d.
Proof.
  induction d as [|[k' v'] d IH]; simpl.
  - intros [[= <- <-]|[]]. auto.
  - destruct (String.eqb k k') eqn:E; simpl.
    + apply String.eqb_eq in E. subst k'.
      intros [[= <- <-]|H]; auto.
    + intros [H|H]; auto. apply IH in H. tauto.
Qed.

End Facts.

Section Comprehensions.

Context {X V : Type}.

Variable entry : X -> option (string * V).

Lemma insert_all_keys xs : forall d k,
  In k (keys (insert_all entry xs d)) <->
  In k (keys d) \/ exists x v, In x xs /\ entry x = Some (k, v).
Proof.
  induction xs as [|x xs IH]; intros d k; simpl.
  - split; [auto | intros [H|(x & v & [] & _)]; exact H].
  - rewrite IH. destruct (entry x) as [[kx vx]|] eqn:E.
    + rewrite keys_set. split.
      * intros [[->|H]|(y & v & Hy & Ey)]; eauto 6.
      * intros [H|(y & v & [<-|Hy] & Ey)]; eauto 6.
        rewrite E in Ey. injection Ey as -> ->. auto.
    + split.
      * intros [H|(y & v & Hy & Ey)]; eauto 6.
      * intros [H|(y & v & [<-|Hy] & Ey)]; eauto 6. congruence.
Qed.

Lemma insert_all_nodup xs : forall d,
  NoDup (keys d) -> NoDup (keys (insert_all entry xs d)).
Proof.
  induction xs as [|x xs IH]; intros d Hnd; simpl; auto.
  apply IH. destruct (entry x) as [[kx vx]|]; auto using nodup_set.
Qed.

(** With no key met twice the comprehension is the list of its entries. *)
Lemma insert_all_fresh xs : forall d,
  NoDup (keys d ++ map fst (entries entry xs)) ->
  insert_all entry xs d = d ++ entries entry xs.
Proof.
  induction xs as [|x xs IH]; intros d Hnd; simpl.
  - now rewrite app_nil_r.
  - unfold entries in *. simpl in Hnd.
    destruct (entry x) as [[kx vx]|] eqn:E; simpl in *.
    + assert (Hfresh : ~ In kx (keys d)).
      { intros Hin. apply NoDup_remove_2 in Hnd. apply Hnd.
        apply in_or_app. now left. }
      rewrite set_fresh by assumption.
      rewrite IH.
      * now rewrite <- app_assoc.
      * unfold keys. rewrite map_app, <- app_assoc. exact Hnd.
    + now apply IH.
Qed.

Lemma insert_all_elems xs : forall d k v,
  In (k, v) (insert_all entry xs d) ->
  In (k, v) d \/ exists x, In x xs /\ entry x = Some (k, v).
Proof.
  induction xs as [|x xs IH]; intros d k v; simpl; auto.
  intros H. apply IH in H as [H|(y & Hy & Ey)]; [|eauto].
  destruct (entry x) as [[kx vx]|] eqn:E; auto.
  apply set_elems in H as [[-> ->]|H]; eauto.
Qed.

Lemma entries_in xs x k v :
  In x xs -> entry x = Some (k, v) -> In (k, v) (entries entry xs).
Proof.
  intros Hin E. unfold entries. apply in_flat_map.
  exists x. split; auto. rewrite E. now left.
Qed.

Lemma comprehension_keys xs k :
  In k (keys (comprehension entry xs)) <->
  exists x v, In x xs /\ entry x = Some (k, v).
Proof.
  unfold comprehension. rewrite insert_all_keys. simpl. tauto.
Qed.

Lemma comprehension_nodup xs : NoDup (keys (comprehension entry xs)).
Proof. apply insert_all_nodup. constructor. Qed.

Lemma comprehension_fresh xs :
  NoDup (map fst (entries entry xs)) ->
  comprehension entry xs = entries entry xs.
Proof. intros Hnd. unfold comprehension. now rewrite insert_all_fresh. Qed.

End Comprehensions.

End DictFacts.

(* ================================================================== *)
(** ** Facts about floats: rounding keeps a value non-negative *)

Module FloatFacts.

Lemma shr_1_nonneg mrs : 0 <= shr_m mrs -> 0 <= shr_m (shr_1 mrs).
Proof.
  destruct mrs as [m r s].
  destruct m as [|[q|q|]|[q|q|]]; simpl; lia.
Qed.

Lemma iter_pos_preserves {A} (P : A -> Prop) (f : A -> A) :
  (forall x, P x -> P (f x)) -> forall n x, P x -> P (iter_pos f n x).
Proof.
  intros Hf. induction n as [n IH|n IH|]; intros x Hx; simpl; auto.
Qed.

Lemma shr_nonneg mrs e n : 0 <= shr_m mrs -> 0 <= shr_m (fst (shr mrs e n)).
Proof.
  intros H. destruct n as [|q|q]; simpl; auto.
  now apply (iter_pos_preserves (fun r => 0 <= shr_m r)); [apply shr_1_nonneg|].
Qed.

Lemma shr_fexp_nonneg m e l :
  0 <= m -> 0 <= shr_m (fst (shr_fexp prec emax m e l)).
Proof.
  intros H. unfold shr_fexp. apply shr_nonneg.
  destruct l as [|[]]; exact H.
Qed.

Lemma round_nearest_even_nonneg m l : 0 <= m -> 0 <= round_nearest_even m l.
Proof.
  intros H. destruct l as [|[]]; simpl; try lia.
  destruct (Z.even m); lia.
Qed.

Lemma binary_round_aux_nonneg m e l :
  0 <= m -> nonneg (binary_round_aux prec emax false m e l) = true.
Proof.
  intros H. unfold binary_round_aux.
  pose proof (shr_fexp_nonneg m e l H) as H1.
  destruct (shr_fexp prec emax m e l) as [mrs' e'] eqn:E1. simpl in H1.
  pose proof (shr_fexp_nonneg _ e' loc_Exact
                (round_nearest_even_nonneg _ (loc_of_shr_record mrs') H1)) as H2.
  destruct (shr_fexp prec emax _ e' loc_Exact) as [mrs'' e''] eqn:E2.
  simpl in H2.
  destruct (shr_m mrs'') as [|q|q]; [reflexivity| |lia].
  destruct (e'' <=? emax - prec); reflexivity.
Qed.

Lemma nearest_nonneg n d : nonneg (nearest false n d) = true.
Proof.
  unfold nearest, SFdiv, SFdiv_core_binary.
  set (e' := Z.min _ _). set (m' := match 0 - 0 - e' with Z0 => _ | _ => _ end).
  assert (Hm' : 0 <= m').
  { subst m'. destruct (0 - 0 - e') as [|q|q]; try lia.
    apply Z.shiftl_nonneg. lia. }
  pose proof (Z.div_pos m' (Zpos d) Hm' ltac:(lia)) as Hq.
  unfold Z.div in Hq.
  destruct (Z.div_eucl m' (Zpos d)) as [q r]. simpl in Hq.
  now apply binary_round_aux_nonneg.
Qed.

Lemma of_ratio_nonneg n d : nonneg (of_ratio false n d) = true.
Proof. destruct n; [reflexivity | apply nearest_nonneg]. Qed.

(** [round(u, n)] of a non-negative [u] is non-negative. *)
Lemma py_round_nonneg u n : nonneg u = true -> nonneg (py_round u n) = true.
Proof.
  destruct u as [s|s| |s m e]; simpl; auto.
  destruct s; [discriminate|]. intros _. apply of_ratio_nonneg.
Qed.

(** [round(u, 4)] of a finite [u] is the float nearest to a decimal with 4
    places, [k * 10 ^ -4]. *)
Lemma py_round_places u :
  is_finite u = true -> exists s k, py_round u 4 = of_decimal s k (-4).
Proof.
  destruct u as [s|s| |s m e]; try discriminate; intros _.
  - exists s, 0%N. reflexivity.
  - exists s. eexists. reflexivity.
Qed.

(** [round(u, n)] of a NaN is a NaN. *)
Lemma py_round_nan u n : is_nan u = true -> is_nan (py_round u n) = true.
Proof. destruct u; simpl; auto; discriminate. Qed.

End FloatFacts.

(* ================================================================== *)
(** ** Facts about labels and the steps of [grad_norm] *)

Section Steps.

Context {U : UnicodeData} {T : TensorLib}.

Implicit Types (m : NNModule) (p : float) (a : norm_arg).

Lemma append_cancel (s x y : string) : (s ++ x = s ++ y)%string -> x = y.
Proof. induction s as [|c s IH]; simpl; intros H; [exact H | injection H; auto]. Qed.

(** For one norm order, different names give different labels. *)
Lemma label_inj p (n1 n2 : string) : label p n1 = label p n2 -> n1 = n2.
Proof.
  unfold label. intros H.
  do 3 apply append_cancel in H. exact H.
Qed.

Lemma entries_norm_keys p m :
  map fst (entries (norm_entry p) m) =
  map (fun np => label p (fst np)) (grad_bearing m).
Proof.
  induction m as [|[n prm] m IH]; simpl; auto.
  unfold norm_entry, has_grad. simpl.
  destruct (grad prm); simpl; now rewrite <- IH.
Qed.

Lemma entries_norm_values p m :
  map snd (entries (norm_entry p) m) =
  map (fun g => item (norm p g)) (gradients m).
Proof.
  induction m as [|[n prm] m IH]; simpl; auto.
  unfold norm_entry. simpl.
  destruct (grad prm); simpl; now rewrite <- IH.
Qed.

Lemma nodup_names_filter (f : string * Param -> bool) m :
  NoDup (map fst m) -> NoDup (map fst (filter f m)).
Proof.
  induction m as [|x m IH]; simpl; intros H; auto.
  inversion H as [|? ? Hn Hnd]; subst.
  destruct (f x); simpl; auto.
  constructor; auto. intros Hin. apply Hn.
  apply in_map_iff in Hin as (y & Hy & Hin).
  apply filter_In in Hin as [Hin _].
  apply in_map_iff. eauto.
Qed.

Lemma nodup_labels p (names : list string) :
  NoDup names -> NoDup (map (label p) names).
Proof.
  induction 1 as [|n names Hn Hnd IH]; simpl; constructor; auto.
  intros Hin. apply in_map_iff in Hin as (n' & Heq & Hin).
  apply label_inj in Heq. now subst.
Qed.

(** Distinct names: the comprehension lists the parameters that hold a
    gradient, one entry each, in order. *)
Lemma param_norms_distinct p m :
  NoDup (map fst m) -> param_norms p m = entries (norm_entry p) m.
Proof.
  intros Hnd. apply DictFacts.comprehension_fresh.
  rewrite entries_norm_keys, <- (map_map fst (label p)).
  apply nodup_labels. now apply nodup_names_filter.
Qed.

Lemma insert_none_grad p m : forall d,
  grad_bearing m = [] -> Dict.insert_all (norm_entry p) m d = d.
Proof.
  induction m as [|[n prm] m IH]; intros d H; simpl in *; auto.
  unfold has_grad, norm_entry in *. simpl in *.
  destruct (grad prm); [discriminate | auto].
Qed.

Lemma param_norms_none p m : grad_bearing m = [] -> param_norms p m = [].
Proof. intros H. now apply insert_none_grad. Qed.

(** The comprehension is non-empty as soon as a parameter holds a gradient. *)
Lemma param_norms_truthy p m :
  grad_bearing m <> [] -> Dict.truthy (param_norms p m) = true.
Proof.
  intros H. destruct (grad_bearing m) as [|[n prm] l] eqn:E; [congruence|].
  assert (Hin : In (n, prm) (grad_bearing m)) by (rewrite E; now left).
  apply filter_In in Hin as [Hin Hg].
  unfold has_grad in Hg. simpl in Hg.
  destruct (grad prm) as [g|] eqn:Eg; [|discriminate].
  assert (Hk : In (label p n) (Dict.keys (param_norms p m))).
  { apply DictFacts.comprehension_keys.
    exists (n, prm), (item (norm p g)). split; auto.
    unfold norm_entry. simpl. now rewrite Eg. }
  destruct (param_norms p m); [destruct Hk | reflexivity].
Qed.

Lemma round_all_map (d : Dict.dict float) :
  NoDup (Dict.keys d) ->
  round_all d = map (fun kv => (fst kv, py_round (snd kv) 4%N)) d.
Proof.
  intros Hnd. unfold round_all, Dict.items.
  assert (E : entries (fun kv : string * float => Some (fst kv, py_round (snd kv) 4%N)) d
              = map (fun kv => (fst kv, py_round (snd kv) 4%N)) d).
  { clear Hnd. induction d as [|kv d IH]; simpl; [|f_equal]; auto. }
  rewrite DictFacts.comprehension_fresh; rewrite E; auto.
  now rewrite map_map.
Qed.

Lemma get_rounded (d : Dict.dict float) k :
  Dict.get (map (fun kv => (fst kv, py_round (snd kv) 4%N)) d) k =
  option_map (fun v => py_round v 4%N) (Dict.get d k).
Proof.
  induction d as [|[k' v'] d IH]; simpl; auto.
  destruct (String.eqb k k'); auto.
Qed.

Lemma store_total_nodup p m :
  NoDup (Dict.keys (store_total p (param_norms p m))).
Proof. apply DictFacts.nodup_set, DictFacts.comprehension_nodup. Qed.

(** The three ways a call ends. *)
Lemma grad_norm_raises a e m :
  py_float a = Raises e -> grad_norm a m = (Raises e, m).
Proof. intros H. unfold grad_norm, bind, lift. now rewrite H. Qed.

Lemma grad_norm_empty a p m :
  py_float a = Returns p -> grad_bearing m = [] ->
  grad_norm a m = (Returns [], m).
Proof.
  intros H Hg. unfold grad_norm, bind, lift, named_parameters, get_state.
  rewrite H. now rewrite param_norms_none.
Qed.

Lemma grad_norm_returns a p m :
  py_float a = Returns p -> grad_bearing m <> [] ->
  grad_norm a m =
  (Returns (map (fun kv => (fst kv, py_round (snd kv) 4%N))
              (store_total p (param_norms p m))), m).
Proof.
  intros H Hg. unfold grad_norm, bind, lift, named_parameters, get_state.
  rewrite H, param_norms_truthy by assumption.
  unfold ret. now rewrite round_all_map by apply store_total_nodup.
Qed.

End Steps.

(* ================================================================== *)
(** ** The report of [grad_norm] *)

Section Report.

Context {U : UnicodeData} {T : TensorLib}.

Implicit Types (m : NNModule) (p : float) (a : norm_arg).

(** C1. When a parameter holds a gradient, the value line 45 stores under
    the total label is the norm, of the same order, of the tensor made of
    the values collected by the comprehension, which for distinct parameter
    names are the norms of the gradients, one per gradient and in order; no
    gradient value enters it except through its parameter's norm. The
    returned report holds that value rounded to 4 places. *)
Theorem total_is_norm_of_collected_norms m a p :
  py_float a = Returns p ->
  grad_bearing m <> [] ->
  let norms := param_norms p m in
  let total := item (norm p (tensor (Dict.values norms))) in
  Dict.get (store_total p norms) (label p "total") = Some total
  /\ (NoDup (map fst m) ->
      Dict.values norms = map (fun g => item (norm p g)) (gradients m))
  /\ exists report,
       grad_norm a m = (Returns report, m)
       /\ Dict.get report (label p "total") = Some (py_round total 4%N).
Proof.
  intros Ha Hg norms total. split; [|split].
  - apply DictFacts.get_set_same.
  - intros Hnd. subst norms. rewrite param_norms_distinct by assumption.
    apply entries_norm_values.
  - eexists. split; [now apply grad_norm_returns with (p := p)|].
    rewrite get_rounded. unfold store_total.
    now rewrite DictFacts.get_set_same.
Qed.

(** C2, amended. A norm order that reads neither as a real number, nor as
    an infinity, nor as a NaN makes the call raise [ValueError], the error
    of the conversion to float, and nothing else; the module is not looked
    at. *)
Theorem unreadable_order_raises_ValueError a m :
  ~ denotes_real a -> ~ denotes_infinity a -> ~ denotes_nan a ->
  grad_norm a m = (Raises ValueError, m).
Proof.
  intros Hr Hi Hn. apply grad_norm_raises.
  destruct a as [f|z|s]; simpl in *.
  - destruct f; simpl in *; exfalso; auto.
  - exfalso; auto.
  - destruct (scan_float (ascii_text s)) as [[neg digits e|neg|]|]; auto.
    + exfalso. apply Hr. eauto.
    + exfalso. apply Hi. eauto.
    + exfalso. now apply Hn.
Qed.

(** The other exception of the conversion: an integer too large for a float
    raises [OverflowError], whatever the module. *)
Theorem huge_int_order_raises_OverflowError m :
  grad_norm (ArgInt (2 ^ 1024)) m = (Raises OverflowError, m).
Proof. now apply grad_norm_raises. Qed.

(** C3. With a norm order that converts to a float, a module none of whose
    parameters holds a gradient gets the empty report: no entry for a
    parameter and none for the total. *)
Theorem no_gradient_empty_report m a p :
  py_float a = Returns p ->
  (forall name prm, In (name, prm) m -> grad prm = None) ->
  grad_norm a m = (Returns [], m).
Proof.
  intros Ha Hnone. apply grad_norm_empty with (p := p); auto.
  unfold grad_bearing.
  induction m as [|[n prm] m IH]; simpl; auto.
  unfold has_grad at 1. simpl.
  rewrite (Hnone n prm) by now left.
  apply IH. intros n' prm' Hin. apply (Hnone n' prm'). now right.
Qed.

(** C5, amended. Every value of the returned report is [round(u, 4)] for a
    value [u] that the tensor library returned, the norm of the collected
    norms or the norm of a parameter's gradient; it is the float nearest to
    a decimal of 4 places whenever [u] is finite, non-negative whenever [u]
    is, and NaN whenever [u] is. *)
Theorem reported_values_are_rounded_norms m a p report m' :
  py_float a = Returns p ->
  grad_norm a m = (Returns report, m') ->
  forall k v, In (k, v) report ->
  exists u,
    v = py_round u 4%N
    /\ (u = total_norm p (param_norms p m)
        \/ exists name prm g,
             In (name, prm) m /\ grad prm = Some g /\ u = item (norm p g))
    /\ (is_finite u = true -> exists s n, v = of_decimal s n (-4))
    /\ (nonneg u = true -> nonneg v = true)
    /\ (is_nan u = true -> is_nan v = true).
Proof.
  intros Ha Hrun k v Hin.
  assert (Hnorms : forall k0 u, In (k0, u) (param_norms p m) ->
            exists name prm g,
              In (name, prm) m /\ grad prm = Some g /\ u = item (norm p g)).
  { intros k0 u Hu. apply DictFacts.insert_all_elems in Hu as [[]|([n prm] & Hx & E)].
    unfold norm_entry in E. simpl in E.
    destruct (grad prm) as [g|] eqn:Eg; [|discriminate].
    injection E as _ <-. eauto 6. }
  destruct (grad_bearing m) as [|x l] eqn:Eg.
  - rewrite (grad_norm_empty a p m Ha Eg) in Hrun.
    injection Hrun as <- _. destruct Hin.
  - rewrite (grad_norm_returns a p m Ha) in Hrun by congruence.
    injection Hrun as <- _.
    apply in_map_iff in Hin as ([k0 u] & [= <- <-] & Hin). simpl.
    exists u. split; [reflexivity|]. split.
    + apply DictFacts.set_elems in Hin as [[_ ->]|Hin]; [now left|].
      right. eauto.
    + split; [apply FloatFacts.py_round_places|].
      split; [apply FloatFacts.py_round_nonneg | apply FloatFacts.py_round_nan].
Qed.


(** C7. A second call on the module as the first call left it ends as the
    first did: the same report, or the same exception. *)
Theorem second_call_same_report a m :
  grad_norm a (snd (grad_norm a m)) = grad_norm a m.
Proof.
  destruct (py_float a) as [p|e] eqn:Ha.
  - destruct (grad_bearing m) as [|x l] eqn:Eg.
    + rewrite (grad_norm_empty a p m Ha Eg). simpl.
      exact (grad_norm_empty a p m Ha Eg).
    + assert (Hne : grad_bearing m <> []) by congruence.
      rewrite (grad_norm_returns a p m Ha Hne). simpl.
      exact (grad_norm_returns a p m Ha Hne).
  - rewrite (grad_norm_raises a e m Ha). simpl.
    exact (grad_norm_raises a e m Ha).
Qed.

(** C8. A call leaves the module as it found it, names, parameter tensors
    and gradients, whether it returns or raises. *)
Theorem module_unchanged a m : snd (grad_norm a m) = m.
Proof.
  unfold grad_norm, bind, lift, named_parameters, get_state, ret.
  destruct (py_float a); [|reflexivity].
  now destruct (Dict.truthy _).
Qed.

(** C10. A parameter named [total] that holds a gradient gets the label of
    the aggregate: its own norm is stored under it first, the aggregate
    replaces it, and with distinct parameter names the report has as many
    entries as there are parameters that hold a gradient. *)
Theorem parameter_named_total_is_overwritten m a p prm g :
  py_float a = Returns p ->
  NoDup (map fst m) ->
  In ("total"%string, prm) m ->
  grad prm = Some g ->
  norm_entry p ("total"%string, prm) = Some (label p "total", item (norm p g))
  /\ Dict.get (param_norms p m) (label p "total") = Some (item (norm p g))
  /\ exists report,
       grad_norm a m = (Returns report, m)
       /\ Dict.get report (label p "total")
          = Some (py_round (total_norm p (param_norms p m)) 4%N)
       /\ Dict.len report = List.length (grad_bearing m).
Proof.
  intros Ha Hnd Hin Hg.
  assert (He : norm_entry p ("total"%string, prm)
               = Some (label p "total", item (norm p g))).
  { unfold norm_entry. simpl. now rewrite Hg. }
  assert (Hown : Dict.get (param_norms p m) (label p "total")
                 = Some (item (norm p g))).
  { apply DictFacts.in_get; [apply DictFacts.comprehension_nodup|].
    rewrite param_norms_distinct by assumption.
    now apply DictFacts.entries_in with (x := ("total"%string, prm)). }
  assert (Hne : grad_bearing m <> []).
  { intros E. rewrite (param_norms_none p m E) in Hown. discriminate. }
  split; [exact He|]. split; [exact Hown|].
  eexists. split; [now apply grad_norm_returns with (p := p)|]. split.
  - rewrite get_rounded. unfold store_total.
    now rewrite DictFacts.get_set_same.
  - unfold Dict.len. rewrite length_map.
    change (Dict.len (store_total p (param_norms p m))
            = List.length (grad_bearing m)).
    unfold store_total. rewrite DictFacts.len_set_present.
    + rewrite param_norms_distinct by assumption.
      unfold Dict.len.
      rewrite <- (length_map fst), entries_norm_keys. apply length_map.
    + apply DictFacts.get_in_keys in Hown.
      change (In (fst (label p "total", item (norm p g)))
                (map fst (param_norms p m))).
      now apply in_map.
Qed.

End Report.

(** The part of C4 that holds: with distinct parameter names, none of them
    [total], the report has one entry per parameter that holds a gradient,
    in the module's order, and the total after them. *)
Theorem report_size_without_total_name {U : UnicodeData} {T : TensorLib}
  (m : NNModule) (a : norm_arg) (p : float) :
  py_float a = Returns p ->
  NoDup (map fst m) ->
  grad_bearing m <> [] ->
  ~ In "total"%string (map fst (grad_bearing m)) ->
  exists report,
    grad_norm a m = (Returns report, m)
    /\ Dict.keys report
       = map (fun np => label p (fst np)) (grad_bearing m) ++ [label p "total"]
    /\ Dict.len report = S (List.length (grad_bearing m)).
Proof.
  intros Ha Hnd Hne Hnt.
  assert (Hk : Dict.keys (param_norms p m)
               = map (fun np => label p (fst np)) (grad_bearing m)).
  { rewrite param_norms_distinct by assumption. apply entries_norm_keys. }
  assert (Hfresh : ~ In (label p "total") (Dict.keys (param_norms p m))).
  { rewrite Hk. intros Hin. apply in_map_iff in Hin as (np & Heq & Hin).
    apply label_inj in Heq. apply Hnt. rewrite <- Heq. now apply in_map. }
  assert (Hkeys : Dict.keys (store_total p (param_norms p m))
            = map (fun np => label p (fst np)) (grad_bearing m)
              ++ [label p "total"]).
  { unfold store_total. rewrite DictFacts.set_fresh by assumption.
    unfold Dict.keys in *. rewrite map_app, Hk. reflexivity. }
  eexists. split; [now apply grad_norm_returns with (p := p)|].
  unfold Dict.len, Dict.keys in *. rewrite map_map. simpl.
  split.
  - exact Hkeys.
  - rewrite length_map, <- (length_map fst), Hkeys, length_app, length_map.
    simpl. lia.
Qed.

(* ================================================================== *)
(** ** Scenarios over the reference library *)

Section Scenarios.

Import Scenario.

Local Open Scope string_scope.

Local Existing Instance Reference.ascii_only.

(** C9. One parameter with the gradient [3, -7, 2] and the order given as
    the text [inf] or as the float infinity: the parameter's entry and the
    total are both 7.0, whatever the parameter is called and whatever power
    function the library has. *)
Theorem infinity_order_scenario (fpow : float -> float -> float)
  (name : string) (values : list float) :
  let T := Reference.lib fpow in
  let m : @NNModule T :=
    [(name, @Build_Param T values (Some [of_Z 3; of_Z (-7); of_Z 2]))] in
  let reports_seven (a : norm_arg) :=
    exists report,
      @grad_norm _ T a m = (Returns report, m)
      /\ Dict.get report ("grad_inf_norm_" ++ name) = Some (of_Z 7)
      /\ Dict.get report "grad_inf_norm_total" = Some (of_Z 7) in
  reports_seven (ArgStr "inf") /\ reports_seven (ArgFloat pinf).
Proof.
  intros T m reports_seven.
  assert (H : forall a, @py_float _ a = Returns pinf -> reports_seven a).
  { intros a Ha.
    assert (Hne : @grad_bearing T m <> []) by discriminate.
    assert (Hn : @param_norms T pinf m = [(@label pinf name, of_Z 7)])
      by reflexivity.
    eexists. split; [exact (@grad_norm_returns _ T a pinf m Ha Hne)|].
    change ("grad_inf_norm_" ++ name) with (label pinf name).
    change "grad_inf_norm_total" with (label pinf "total").
    rewrite !get_rounded. unfold store_total. rewrite Hn.
    change (@total_norm T pinf [(label pinf name, of_Z 7)]) with (of_Z 7).
    split; [|now rewrite DictFacts.get_set_same].
    destruct (string_dec name "total") as [->|Hname].
    - now rewrite DictFacts.get_set_same.
    - rewrite DictFacts.get_set_other.
      + simpl. now rewrite String.eqb_refl.
      + intros E. apply label_inj in E. contradiction. }
  split; apply H; reflexivity.
Qed.

(** C4 on a module with a parameter named [total]: two parameters hold a
    gradient and the report has two entries, not three; the entry of
    [total] holds the aggregate, 5.099 for the norms 5.0 and 1.0. *)
Theorem named_total_report_has_two_entries :
  @grad_norm _ lib (ArgInt 2) named_total
  = (Returns [("grad_2.0_norm_total", of_decimal false 5099 (-3));
              ("grad_2.0_norm_bias", of_Z 1)], named_total)
  /\ List.length (grad_bearing named_total) = 2%nat.
Proof. split; reflexivity. Qed.

(** C2 as stated fails on the text [nan]: it reads neither as a real number
    nor as an infinity, and the call returns. *)
Lemma nan_order_is_accepted :
  ~ denotes_real (ArgStr "nan")
  /\ ~ denotes_infinity (ArgStr "nan")
  /\ @grad_norm _ lib (ArgStr "nan") no_gradients = (Returns [], no_gradients)
  /\ @grad_norm _ lib (ArgFloat nan) no_gradients = (Returns [], no_gradients).
Proof.
  split; [|split; [|split; reflexivity]].
  - intros (neg & digits & e & H). vm_compute in H. discriminate.
  - intros (neg & H). vm_compute in H. discriminate.
Qed.

(** C5 as stated fails on a gradient that holds a NaN: both reported values
    are NaN, which is not [>= 0]. *)
Lemma nan_gradient_is_reported_as_nan :
  @grad_norm _ lib (ArgInt 2) nan_gradient
  = (Returns [("grad_2.0_norm_w", nan); ("grad_2.0_norm_total", nan)],
     nan_gradient)
  /\ nonneg nan = false.
Proof. split; reflexivity. Qed.

(** The scenario of the specification with two gradients and order 2. *)
Theorem order_two_scenario :
  @grad_norm _ lib (ArgInt 2) two_layers
  = (Returns [("grad_2.0_norm_p1", of_Z 5); ("grad_2.0_norm_p2", pzero);
              ("grad_2.0_norm_total", of_Z 5)], two_layers).
Proof. reflexivity. Qed.

(** Order 0 counts the non-zero entries. The total is the norm of the
    collected norms, 2.0 for the norms 2.0 and 3.0, where the norm of the
    gradient values put together is 5.0. *)
Theorem order_zero_scenario :
  fst (@grad_norm _ lib (ArgInt 0) sparse)
  = Returns [("grad_0.0_norm_w", of_Z 2); ("grad_0.0_norm_v", of_Z 3);
             ("grad_0.0_norm_total", of_Z 2)]
  /\ Reference.vector_norm (fun _ _ => nan) pzero
       (@List.concat float (@gradients lib sparse)) = of_Z 5.
Proof. split; reflexivity. Qed.

(** The report holds rounded values: a gradient [2 ** -14] has the norm
    [2 ** -14] and is reported as 0.0001. *)
Theorem tiny_gradient_is_rounded :
  @grad_norm _ lib (ArgStr "inf") tiny_gradient
  = (Returns [("grad_inf_norm_w", of_decimal false 1 (-4));
              ("grad_inf_norm_total", of_decimal false 1 (-4))], tiny_gradient)
  /\ @total_norm lib pinf (param_norms pinf tiny_gradient) = tiny.
Proof. split; reflexivity. Qed.

(** *** The theorems at the scenarios *)

Lemma two_layers_names : NoDup (map fst two_layers).
Proof. repeat constructor; simpl; intuition discriminate. Qed.

Lemma named_total_names : NoDup (map fst named_total).
Proof. repeat constructor; simpl; intuition discriminate. Qed.

Lemma two_layers_has_gradients : grad_bearing two_layers <> [].
Proof. discriminate. Qed.

Lemma total_is_norm_witness :
  exists report,
    @grad_norm _ lib (ArgInt 2) two_layers = (Returns report, two_layers)
    /\ Dict.values (param_norms (of_Z 2) two_layers) = [of_Z 5; pzero]
    /\ Dict.get report "grad_2.0_norm_total" = Some (of_Z 5).
Proof.
  destruct (@total_is_norm_of_collected_norms _ lib two_layers (ArgInt 2)
              (of_Z 2) eq_refl two_layers_has_gradients)
    as (_ & Hvalues & report & Hrun & Hget).
  exists report. split; [exact Hrun|]. split; [|exact Hget].
  exact (Hvalues two_layers_names).
Defined.

Lemma unreadable_order_witness :
  @grad_norm _ lib (ArgStr "abc") two_layers = (Raises ValueError, two_layers).
Proof.
  apply unreadable_order_raises_ValueError; unfold not; simpl.
  - intros (neg & digits & e & H). vm_compute in H. discriminate.
  - intros (neg & H). vm_compute in H. discriminate.
  - intros H. vm_compute in H. discriminate.
Defined.

Lemma no_gradient_witness :
  @grad_norm _ lib (ArgInt 2) no_gradients = (Returns [], no_gradients).
Proof.
  apply (@no_gradient_empty_report _ lib no_gradients (ArgInt 2) (of_Z 2) eq_refl).
  intros name prm [H|[H|[]]]; injection H as _ <-; reflexivity.
Defined.

Lemma reported_values_witness :
  exists u,
    of_Z 5 = py_round u 4%N
    /\ (nonneg u = true -> nonneg (of_Z 5) = true).
Proof.
  destruct (@reported_values_are_rounded_norms _ lib two_layers (ArgInt 2)
              (of_Z 2)
              [("grad_2.0_norm_p1", of_Z 5); ("grad_2.0_norm_p2", pzero);
               ("grad_2.0_norm_total", of_Z 5)]
              two_layers eq_refl eq_refl
              "grad_2.0_norm_p1" (of_Z 5) (or_introl eq_refl))
    as (u & Hv & _ & _ & Hnonneg & _).
  exists u. split; [exact Hv | exact Hnonneg].
Defined.


Lemma named_total_witness :
  exists report,
    @grad_norm _ lib (ArgInt 2) named_total = (Returns report, named_total)
    /\ Dict.get (param_norms (of_Z 2) named_total) "grad_2.0_norm_total"
       = Some (of_Z 5)
    /\ Dict.get report "grad_2.0_norm_total" = Some (of_decimal false 5099 (-3))
    /\ Dict.len report = 2%nat.
Proof.
  destruct (@parameter_named_total_is_overwritten _ lib named_total (ArgInt 2)
              (of_Z 2) (with_grad [of_Z 3; of_Z 4]) [of_Z 3; of_Z 4]
              eq_refl named_total_names (or_introl eq_refl) eq_refl)
    as (_ & Hown & report & Hrun & Hget & Hlen).
  exists report. split; [exact Hrun|]. split; [exact Hown|].
  split; [exact Hget | exact Hlen].
Defined.

Lemma report_size_witness :
  exists report,
    @grad_norm _ lib (ArgInt 2) two_layers = (Returns report, two_layers)
    /\ Dict.keys report
       = ["grad_2.0_norm_p1"; "grad_2.0_norm_p2"; "grad_2.0_norm_total"]
    /\ Dict.len report = 3%nat.
Proof.
  destruct (@report_size_without_total_name _ lib two_layers (ArgInt 2) (of_Z 2)
              eq_refl two_layers_names two_layers_has_gradients)
    as (report & Hrun & Hkeys & Hlen).
  - simpl. intuition discriminate.
  - exists report. split; [exact Hrun|]. split; [exact Hkeys | exact Hlen].
Defined.

End Scenarios.

(* ================================================================== *)
(** ** More about the report: its entries, its shape, what it depends on *)

Section Shape.

Context {U : UnicodeData} {T : TensorLib}.

Implicit Types (m : NNModule) (p : float) (a : norm_arg).

Lemma entries_named p m :
  entries (norm_entry p) m =
  map (fun ng => (label p (fst ng), item (norm p (snd ng)))) (named_gradients m).
Proof.
  induction m as [|[n prm] m IH]; simpl; auto.
  unfold norm_entry at 1. simpl.
  destruct (grad prm); simpl; now rewrite <- IH.
Qed.


(** The comprehension only sees the entries, whatever list they come from. *)
Lemma insert_all_entries {X V} (entry : X -> option (string * V)) xs :
  forall d, Dict.insert_all entry xs d = Dict.insert_all Some (entries entry xs) d.
Proof.
  induction xs as [|x xs IH]; intros d; simpl; auto.
  unfold entries. simpl.
  destruct (entry x) as [[k v]|]; simpl; apply IH.
Qed.

Lemma param_norms_named p m :
  param_norms p m =
  Dict.insert_all Some
    (map (fun ng => (label p (fst ng), item (norm p (snd ng)))) (named_gradients m))
    Dict.empty.
Proof.
  unfold param_norms, Dict.comprehension.
  now rewrite insert_all_entries, entries_named.
Qed.

(** What a call returns, as a function of the argument and the module. *)
Lemma grad_norm_outcome a m :
  fst (grad_norm a m) =
  match py_float a with
  | Raises e => Raises e
  | Returns p =>
      Returns (if Dict.truthy (param_norms p m)
               then round_all (store_total p (param_norms p m))
               else param_norms p m)
  end.
Proof.
  unfold grad_norm, bind, lift, named_parameters, get_state, ret.
  destruct (py_float a) as [p|e]; [|reflexivity].
  now destruct (Dict.truthy _).
Qed.


(** The entry of a parameter. With distinct parameter names, a parameter
    that holds a gradient and is not called [total] has its own entry, and
    the entry is the norm of its gradient, rounded to 4 places; this holds
    whether or not another parameter is called [total]. *)
Theorem parameter_entry_is_its_rounded_norm m a p name prm g :
  py_float a = Returns p ->
  NoDup (map fst m) ->
  In (name, prm) m ->
  grad prm = Some g ->
  name <> "total"%string ->
  exists report,
    grad_norm a m = (Returns report, m)
    /\ Dict.get report (label p name) = Some (py_round (item (norm p g)) 4%N).
Proof.
  intros Ha Hnd Hin Hg Hname.
  assert (Hown : Dict.get (param_norms p m) (label p name)
                 = Some (item (norm p g))).
  { apply DictFacts.in_get; [apply DictFacts.comprehension_nodup|].
    rewrite param_norms_distinct by assumption.
    apply DictFacts.entries_in with (x := (name, prm)); auto.
    unfold norm_entry. simpl. now rewrite Hg. }
  assert (Hne : grad_bearing m <> []).
  { intros E. rewrite (param_norms_none p m E) in Hown. discriminate. }
  eexists. split; [now apply grad_norm_returns with (p := p)|].
  rewrite get_rounded. unfold store_total.
  rewrite DictFacts.get_set_other, Hown; auto.
  intros E. apply label_inj in E. contradiction.
Qed.




(** The outcome depends on the module only through the names and gradients
    of the parameters that hold a gradient: parameters without a gradient
    and the values of the parameters do not count. *)
Theorem report_depends_on_gradients_only m m' a :
  named_gradients m = named_gradients m' ->
  fst (grad_norm a m) = fst (grad_norm a m').
Proof.
  intros E. rewrite !grad_norm_outcome.
  destruct (py_float a) as [p|e]; [|reflexivity].
  now rewrite (param_norms_named p m), (param_norms_named p m'), E.
Qed.


End Shape.

(* ================================================================== *)
(** ** The conversion of an integer norm order *)

Module IntConversion.

Lemma digits2_size q : digits2_pos q = Pos.size q.
Proof. induction q; simpl; congruence. Qed.

(** A positive integer has at least the power of two of its last digit. *)
Lemma digits_lower q : 2 ^ (Zpos (digits2_pos q) - 1) <= Zpos q.
Proof.
  rewrite digits2_size.
  pose proof (Pos.size_le q) as H.
  assert (H' : 2 ^ Zpos (Pos.size q) <= 2 * Zpos q).
  { change (2 * Zpos q) with (Zpos q~0). rewrite <- Pos2Z.inj_pow. exact H. }
  replace (Zpos (Pos.size q)) with (Zpos (Pos.size q) - 1 + 1) in H' by lia.
  rewrite Z.pow_add_r in H' by lia. lia.
Qed.

Lemma digits_upper q : Zpos q < 2 ^ Zpos (digits2_pos q).
Proof.
  rewrite digits2_size. pose proof (Pos.size_gt q) as H.
  rewrite <- Pos2Z.inj_pow. exact H.
Qed.

Lemma shr_1_half mrs : 0 <= shr_m mrs -> shr_m (shr_1 mrs) = shr_m mrs / 2.
Proof.
  destruct mrs as [m r s]. simpl. intros H.
  rewrite <- Z.div2_div.
  destruct m as [|[q|q|]|q]; simpl; auto; lia.
Qed.

Lemma iter_shr_1 k : forall mrs,
  0 <= shr_m mrs ->
  shr_m (iter_pos shr_1 k mrs) = shr_m mrs / 2 ^ Zpos k.
Proof.
  assert (Hpos : forall j, 0 < 2 ^ Zpos j) by (intros; apply Z.pow_pos_nonneg; lia).
  assert (Hnn : forall j mrs, 0 <= shr_m mrs -> 0 <= shr_m (iter_pos shr_1 j mrs)).
  { intros j mrs H.
    now apply (FloatFacts.iter_pos_preserves (fun r => 0 <= shr_m r));
      [apply FloatFacts.shr_1_nonneg|]. }
  induction k as [k IH|k IH|]; intros mrs H; cbn [iter_pos].
  - rewrite IH, IH, shr_1_half; auto using FloatFacts.shr_1_nonneg.
    rewrite !Z.div_div by (pose proof (Hpos k); lia).
    f_equal. replace (Zpos k~1) with (1 + Zpos k + Zpos k) by lia.
    rewrite !Z.pow_add_r by lia. change (2 ^ 1) with 2. ring.
  - rewrite IH, IH; auto.
    rewrite Z.div_div by (pose proof (Hpos k); lia).
    f_equal. replace (Zpos k~0) with (Zpos k + Zpos k) by lia.
    rewrite Z.pow_add_r by lia. reflexivity.
  - rewrite shr_1_half by assumption. reflexivity.
Qed.

(** Where the value is above the smallest subnormal, the shift [shr_fexp]
    makes leaves a positive mantissa positive and does not lower the
    exponent. *)
Lemma shr_fexp_positive q e mrs e' :
  emin prec emax < Zpos (digits2_pos q) + e ->
  shr_fexp prec emax (Zpos q) e loc_Exact = (mrs, e') ->
  0 < shr_m mrs /\ e <= e' /\ Zpos (digits2_pos q) + e - prec <= e'.
Proof.
  intros He E. unfold shr_fexp, shr in E.
  cbn [shr_record_of_loc Zdigits2] in E.
  unfold fexp, emin, prec, emax in *.
  pose proof (digits_lower q) as Hl.
  set (d := Zpos (digits2_pos q)) in *.
  assert (Hd : 0 < d) by (subst d; lia).
  destruct (Z.max (d + e - 53) (3 - 1024 - 53) - e) as [|k|k] eqn:En;
    injection E as <- <-; cbn [shr_m]; try (repeat split; lia).
  rewrite iter_shr_1 by (cbn [shr_m]; lia). cbn [shr_m].
  split; [|lia].
  apply Z.div_str_pos. split; [apply Z.pow_pos_nonneg; lia|].
  eapply Z.le_trans; [|exact Hl].
  apply Z.pow_le_mono_r; lia.
Qed.

(** Rounding a positive value at or above [2 ^ emax] overflows. *)
Lemma binary_round_aux_overflow s q e :
  emax < Zpos (digits2_pos q) + e ->
  is_inf (binary_round_aux prec emax s (Zpos q) e loc_Exact) = true.
Proof.
  intros Hbig. unfold binary_round_aux.
  destruct (shr_fexp prec emax (Zpos q) e loc_Exact) as [mrs' e'] eqn:E1.
  apply shr_fexp_positive in E1 as (Hm1 & _ & He1);
    [|unfold emin, prec, emax in *; lia].
  set (m2 := round_nearest_even (shr_m mrs') (loc_of_shr_record mrs')).
  assert (Hm2 : 0 < m2).
  { subst m2. destruct (loc_of_shr_record mrs') as [|[]]; simpl; try lia.
    destruct (Z.even (shr_m mrs')); lia. }
  destruct m2 as [|q2|q2] eqn:Em2; try lia.
  destruct (shr_fexp prec emax (Zpos q2) e' loc_Exact) as [mrs'' e''] eqn:E2.
  apply shr_fexp_positive in E2 as (Hm3 & He2 & _);
    [|unfold emin, prec, emax in *; lia].
  destruct (shr_m mrs'') as [|q3|q3]; try lia.
  replace (e'' <=? emax - prec) with false; [reflexivity|].
  symmetry. apply Z.leb_gt. unfold prec, emax in *. lia.
Qed.

(** An integer of magnitude [2 ** 1024] or more has no float. *)
Lemma of_Z_overflow z : 2 ^ 1024 <= Z.abs z -> is_inf (of_Z z) = true.
Proof.
  intros Hz. unfold of_Z, binary_normalize.
  assert (H : forall s q, 2 ^ 1024 <= Zpos q ->
            is_inf (binary_round prec emax s q 0) = true).
  { intros s q Hq. unfold binary_round, shl_align.
    pose proof (digits_upper q) as Hu.
    assert (Hd : 1024 < Zpos (digits2_pos q)).
    { apply (Z.pow_lt_mono_r_iff 2); lia. }
    unfold fexp, emin, prec, emax in *.
    destruct (Z.max (Zpos (digits2_pos q) + 0 - 53) (3 - 1024 - 53) - 0)
      as [|k|k] eqn:En; try lia;
      apply binary_round_aux_overflow; unfold emax; lia. }
  destruct z as [|q|q]; simpl in Hz; [lia | apply H; lia | apply H; lia].
Qed.



End IntConversion.

(* ================================================================== *)
(** ** How a call fails *)

Section Failures.

Context {U : UnicodeData} {T : TensorLib}.

Implicit Types (m : NNModule) (a : norm_arg).


(** An integer order of magnitude [2 ** 1024] or more makes the call raise
    [OverflowError], whatever the module. *)
Theorem huge_int_orders_raise_OverflowError z m :
  2 ^ 1024 <= Z.abs z ->
  grad_norm (ArgInt z) m = (Raises OverflowError, m).
Proof.
  intros Hz. apply grad_norm_raises. unfold py_float.
  pose proof (IntConversion.of_Z_overflow z Hz) as Hi.
  destruct (of_Z z); try discriminate. reflexivity.
Qed.

End Failures.

(* ================================================================== *)
(** ** The further theorems at the scenarios *)

Section MoreScenarios.

Import Scenario.

Local Open Scope string_scope.

Local Existing Instance Reference.ascii_only.

Lemma parameter_entry_witness :
  exists report,
    @grad_norm _ lib (ArgInt 2) named_total = (Returns report, named_total)
    /\ Dict.get report "grad_2.0_norm_bias" = Some (of_Z 1).
Proof.
  destruct (@parameter_entry_is_its_rounded_norm _ lib named_total (ArgInt 2)
              (of_Z 2) "bias" (with_grad [of_Z 1]) [of_Z 1]
              eq_refl named_total_names (or_intror (or_introl eq_refl)) eq_refl)
    as (report & Hrun & Hget).
  - discriminate.
  - exists report. split; [exact Hrun | exact Hget].
Defined.



Lemma report_depends_witness :
  fst (@grad_norm _ lib (ArgInt 2) two_layers)
  = fst (@grad_norm _ lib (ArgInt 2) two_layers_trained).
Proof.
  exact (@report_depends_on_gradients_only _ lib two_layers two_layers_trained
           (ArgInt 2) eq_refl).
Defined.


Lemma huge_int_order_witness :
  @grad_norm _ lib (ArgInt (10 ^ 400)) two_layers
  = (Raises OverflowError, two_layers).
Proof.
  apply huge_int_orders_raise_OverflowError.
  apply Z.leb_le. vm_compute. reflexivity.
Defined.

End MoreScenarios.
